(** * The in-memory task API of [src/index.js] and its duplicate

    A shallow embedding of the Express route handlers of [src/index.js]
    (port 5000) and of the second copy [src/unnamed/part_000] (port 3000),
    together with the parts of JavaScript the handlers rely on:
    [Number(string)], strict equality on numbers, truthiness of a parsed
    JSON value, [Array.prototype.find], [filter] and [push], and the text of
    a number in a template literal.

    The module-level [let tasks = []] becomes an explicit registry that every
    handler receives and returns; [Date.now()] becomes a clock reading that
    the caller supplies with the request. *)

From stdpp Require Import base list.
From Stdlib Require Import ZArith NArith Bool Lia.
From Stdlib Require String Ascii DecimalString.
Import String.StringSyntax.
Bind Scope string_scope with String.string.
From Stdlib Require Import Floats.SpecFloat.

Local Open Scope Z_scope.

(** ** JavaScript values *)

Module JS.

(** A JavaScript string is a sequence of UTF-16 code units. *)
Definition jsstring := list N.

(** Code units of an ASCII literal. *)
Definition lit (s : String.string) : jsstring :=
  map Ascii.N_of_ascii (String.list_ascii_of_string s).

(** A JavaScript Number is an IEEE 754 binary64 value. *)
Definition number := spec_float.
Definition prec : Z := 53.
Definition emax : Z := 1024.

Definition NaN : number := S754_nan.

(** The Number whose value is the integer [z] (exact below 2^53, rounded to
    nearest-even above). *)
Definition of_Z (z : Z) : number := binary_normalize prec emax z 0 false.

(** [a === b] on two Numbers: IEEE equality, so [NaN] equals nothing and
    the two zeros are equal. *)
Definition strict_eq (a b : number) : bool := SFeqb a b.

(** The text of an integer in a template literal: its decimal digits. *)
Definition to_string (z : Z) : String.string :=
  DecimalString.NilZero.string_of_int (Z.to_int z).

(** *** [Number(string)]: StringToNumber *)

(** WhiteSpace and LineTerminator code units (StrWhiteSpaceChar). *)
Definition is_whitespace (c : N) : bool :=
  existsb (N.eqb c)
    [9; 10; 11; 12; 13; 32; 160; 5760; 8232; 8233; 8239; 8287; 12288; 65279]%N
  || ((8192 <=? c) && (c <=? 8202))%N.

Fixpoint drop_whitespace (s : jsstring) : jsstring :=
  match s with
  | c :: r => if is_whitespace c then drop_whitespace r else s
  | [] => []
  end.

Definition trim (s : jsstring) : jsstring :=
  rev (drop_whitespace (rev (drop_whitespace s))).

Definition is_digit (c : N) : bool := ((48 <=? c) && (c <=? 57))%N.

(** Value of a digit in a radix up to 16, [None] when [c] is no such digit. *)
Definition digit_of (radix : Z) (c : N) : option Z :=
  let v :=
    if ((48 <=? c) && (c <=? 57))%N then Some (Z.of_N c - 48)
    else if ((97 <=? c) && (c <=? 102))%N then Some (Z.of_N c - 87)
    else if ((65 <=? c) && (c <=? 70))%N then Some (Z.of_N c - 55)
    else None in
  match v with
  | Some d => if d <? radix then Some d else None
  | None => None
  end.

(** Longest prefix of decimal digits, and what follows it. *)
Fixpoint span_digits (s : jsstring) : jsstring * jsstring :=
  match s with
  | c :: r =>
      if is_digit c then let '(ds, rest) := span_digits r in (c :: ds, rest)
      else ([], s)
  | [] => ([], [])
  end.

(** Value of a whole string of digits in [radix], [None] if some code unit
    is not a digit of that radix. *)
Fixpoint digits_value (radix : Z) (acc : Z) (s : jsstring) : option Z :=
  match s with
  | [] => Some acc
  | c :: r =>
      match digit_of radix c with
      | Some d => digits_value radix (radix * acc + d) r
      | None => None
      end
  end.

Definition decimal_value (ds : jsstring) : Z :=
  default 0 (digits_value 10 0 ds).

(** ExponentPart, optional: [e] or [E], an optional sign, one or more
    digits, and nothing after it. *)
Definition parse_exponent (s : jsstring) : option Z :=
  match s with
  | [] => Some 0
  | c :: r =>
      if (c =? 101)%N || (c =? 69)%N then
        let '(neg, r') :=
          match r with
          | sign :: r' =>
              if (sign =? 43)%N then (false, r')
              else if (sign =? 45)%N then (true, r')
              else (false, r)
          | [] => (false, r)
          end in
        match span_digits r' with
        | ((_ :: _) as ds, []) =>
            Some (if neg then - decimal_value ds else decimal_value ds)
        | _ => None
        end
      else None
  end.

(** StrUnsignedDecimalLiteral without [Infinity]: digits, then optionally a
    dot and more digits, with a digit on at least one side of the dot, then
    the exponent. The pair [(m, e)] stands for m * 10^e. *)
Definition parse_unsigned_decimal (s : jsstring) : option (Z * Z) :=
  let '(ip, r1) := span_digits s in
  let '(fp, r3) :=
    match r1 with
    | c :: r2 => if (c =? 46)%N then span_digits r2 else ([], r1)
    | [] => ([], r1)
    end in
  match ip ++ fp with
  | [] => None
  | ds =>
      match parse_exponent r3 with
      | Some e => Some (decimal_value ds, e - Z.of_nat (length fp))
      | None => None
      end
  end.

(** The Number value for m * 10^e with the sign [neg]: round to nearest,
    ties to even. *)
Definition round_decimal (neg : bool) (m e : Z) : number :=
  if m <=? 0 then S754_zero neg
  else if 0 <=? e then
    binary_normalize prec emax (if neg then - (m * 10 ^ e) else m * 10 ^ e) 0 neg
  else
    let '(q, e2, loc) := SFdiv_core_binary prec emax m 0 (10 ^ (- e)) 0 in
    binary_round_aux prec emax neg q e2 loc.

Definition Infinity_lit : jsstring := lit "Infinity".

Definition jsstring_eqb (a b : jsstring) : bool := bool_decide (a = b).

(** StrDecimalLiteral after the sign has been read. *)
Definition parse_decimal (neg : bool) (s : jsstring) : number :=
  if jsstring_eqb s Infinity_lit then S754_infinity neg
  else
    match parse_unsigned_decimal s with
    | Some (m, e) => round_decimal neg m e
    | None => NaN
    end.

(** NonDecimalIntegerLiteral: the digits after [0x], [0o] or [0b]. *)
Definition parse_radix (radix : Z) (s : jsstring) : number :=
  match s with
  | [] => NaN
  | _ =>
      match digits_value radix 0 s with
      | Some v => of_Z v
      | None => NaN
      end
  end.

(** StrNumericLiteral on a string without surrounding white space. The
    empty string is 0; a sign may only precede a decimal literal. *)
Definition parse_numeric (s : jsstring) : number :=
  match s with
  | [] => S754_zero false
  | c :: r =>
      if (c =? 43)%N then parse_decimal false r
      else if (c =? 45)%N then parse_decimal true r
      else if (c =? 48)%N then
        match r with
        | x :: digits =>
            if (x =? 120)%N || (x =? 88)%N then parse_radix 16 digits
            else if (x =? 111)%N || (x =? 79)%N then parse_radix 8 digits
            else if (x =? 98)%N || (x =? 66)%N then parse_radix 2 digits
            else parse_decimal false s
        | [] => parse_decimal false s
        end
      else parse_decimal false s
  end.

(** [Number(s)] for a string [s]. *)
Definition Number (s : jsstring) : number := parse_numeric (trim s).

(** *** Parsed JSON values, and [undefined] *)

#[warnings="-register-all"] Inductive value :=
| VUndefined
| VNull
| VBool (b : bool)
| VNum (n : number)
| VStr (s : jsstring)
| VArr (items : list value)
| VObj (fields : list (jsstring * value)).

(** ToBoolean: what [if (v)] and [!v] test. *)
Definition to_boolean (v : value) : bool :=
  match v with
  | VUndefined | VNull => false
  | VBool b => b
  | VNum (S754_zero _) | VNum S754_nan => false
  | VNum _ => true
  | VStr [] => false
  | VStr _ => true
  | VArr _ | VObj _ => true
  end.

(** Own property [key] of an object built by [JSON.parse]: of two members
    with the same key the later one is kept. *)
Fixpoint get_field (key : jsstring) (fields : list (jsstring * value)) : value :=
  match fields with
  | [] => VUndefined
  | (k, v) :: r =>
      match get_field key r with
      | VUndefined => if jsstring_eqb k key then v else VUndefined
      | later => later
      end
  end.

End JS.

(** ** Tasks, requests and responses *)

Module Http.
Import JS.

(** A task object [{ id, title, completed }]. [id] is the integral time
    value that [Date.now()] returned; [title] is whatever truthy value the
    request body carried. *)
Record task := Task { id : Z; title : value; completed : bool }.

(** [task.completed = b], the other fields kept. *)
Definition set_completed (b : bool) (t : task) : task :=
  {| id := id t; title := title t; completed := b |}.

(** [req.body] as [express.json()] leaves it: the object or the array it
    parsed. For a request without a JSON body, Express 4 leaves the empty
    object, [BodyObject []], and Express 5 leaves [undefined]; the source
    does not say which Express it runs on. *)
Inductive reqbody :=
| BodyObject (fields : list (jsstring * value))
| BodyArray (items : list value)
| BodyUndefined.

(** The value that [const { title } = req.body] binds. An array has no
    property [title]. From [undefined] nothing is bound: the statement
    throws, which [post_tasks] decides before it reads the title. *)
Definition destructure_title (b : reqbody) : value :=
  match b with
  | BodyObject fields => get_field (lit "title") fields
  | BodyArray _ => VUndefined
  | BodyUndefined => VUndefined
  end.

(** The five routes; [seg] is [req.params.id], the decoded path segment. *)
Inductive request :=
| GetRoot
| GetTasks
| PostTasks (body : reqbody)
| PutTask (seg : jsstring)
| DeleteTask (seg : jsstring).

(** What [res.send] or [res.json] was given, serialized at the call; or the
    page that the error handler of Express writes when a route handler
    throws. *)
Inductive payload :=
| Text (s : String.string)
| JsonTasks (ts : list task)
| JsonTask (t : task)
| JsonError (error : String.string)
| JsonMessage (message : String.string)
| ErrorPage.

Record response := Response { status : Z; body : payload }.

(** A handler that throws has answered nothing; Express answers 500 in its
    place. *)
Definition uncaught : response := Response 500 ErrorPage.

(** What [app.listen(PORT, callback)] does when the file is run: the port
    the server listens on and the lines that the callback logs. *)
Record startup := Startup { listens_on : Z; logged : list String.string }.

(** [task.id === id] for a task and a parsed id. *)
Definition id_matches (n : number) (t : task) : bool :=
  strict_eq (of_Z (id t)) n.

End Http.

(** ** The route handlers of [src/index.js] *)

Module IndexJs.
Import JS Http.

Definition PORT : Z := 5000.

(** [app.get("/")] *)
Definition get_root (tasks : list task) : response * list task :=
  (Response 200 (Text "API is running 🚀"), tasks).

(** [app.get("/tasks")] *)
Definition get_tasks (tasks : list task) : response * list task :=
  (Response 200 (JsonTasks tasks), tasks).

(** [app.post("/tasks")]; [now] is what [Date.now()] returns. Destructuring
    an [undefined] body throws a TypeError before anything else is done. *)
Definition post_tasks (now : Z) (b : reqbody) (tasks : list task)
  : response * list task :=
  match b with
  | BodyUndefined => (uncaught, tasks)
  | _ =>
      let title := destructure_title b in
      if negb (to_boolean title) then
        (Response 400 (JsonError "Title is required"), tasks)
      else
        let newTask := {| id := now; title := title; completed := false |} in
        let tasks := tasks ++ [newTask] in
        (Response 201 (JsonTask newTask), tasks)
  end.

(** [app.put("/tasks/:id")]. [find] yields the first matching object; the
    assignment to [task.completed] writes through to its slot of the array. *)
Definition put_task (seg : jsstring) (tasks : list task)
  : response * list task :=
  let id := Number seg in
  match list_find (λ task, id_matches id task = true) tasks with
  | None => (Response 404 (JsonError "Task not found"), tasks)
  | Some (i, task) =>
      let task := set_completed (negb (completed task)) task in
      (Response 200 (JsonTask task), <[i := task]> tasks)
  end.

(** [app.delete("/tasks/:id")] *)
Definition delete_task (seg : jsstring) (tasks : list task)
  : response * list task :=
  let id := Number seg in
  let tasks := filter (λ task, id_matches id task ≠ true) tasks in
  (Response 200 (JsonMessage "Task deleted successfully"), tasks).

Definition handle (now : Z) (req : request) (tasks : list task)
  : response * list task :=
  match req with
  | GetRoot => get_root tasks
  | GetTasks => get_tasks tasks
  | PostTasks b => post_tasks now b tasks
  | PutTask seg => put_task seg tasks
  | DeleteTask seg => delete_task seg tasks
  end.

(** [app.listen(PORT, ...)]: one line is logged. *)
Definition listen (port : Z) : startup :=
  {| listens_on := port;
     logged := [String.append "🚀 Server running at http://localhost:"
                              (to_string port)] |}.

Definition main : startup := listen PORT.

End IndexJs.

(** ** The route handlers of [src/unnamed/part_000] *)

Module Part000.
Import JS Http.

Definition PORT : Z := 3000.

Definition get_root (tasks : list task) : response * list task :=
  (Response 200 (Text "API is running 🚀"), tasks).

Definition get_tasks (tasks : list task) : response * list task :=
  (Response 200 (JsonTasks tasks), tasks).

Definition post_tasks (now : Z) (b : reqbody) (tasks : list task)
  : response * list task :=
  match b with
  | BodyUndefined => (uncaught, tasks)
  | _ =>
      let title := destructure_title b in
      if negb (to_boolean title) then
        (Response 400 (JsonError "Title is required"), tasks)
      else
        let newTask := {| id := now; title := title; completed := false |} in
        let tasks := tasks ++ [newTask] in
        (Response 201 (JsonTask newTask), tasks)
  end.

Definition put_task (seg : jsstring) (tasks : list task)
  : response * list task :=
  let id := Number seg in
  match list_find (λ t, id_matches id t = true) tasks with
  | None => (Response 404 (JsonError "Task not found"), tasks)
  | Some (i, task) =>
      let task := set_completed (negb (completed task)) task in
      (Response 200 (JsonTask task), <[i := task]> tasks)
  end.

Definition delete_task (seg : jsstring) (tasks : list task)
  : response * list task :=
  let id := Number seg in
  let tasks := filter (λ t, id_matches id t ≠ true) tasks in
  (Response 200 (JsonMessage "Task deleted successfully"), tasks).

Definition handle (now : Z) (req : request) (tasks : list task)
  : response * list task :=
  match req with
  | GetRoot => get_root tasks
  | GetTasks => get_tasks tasks
  | PostTasks b => post_tasks now b tasks
  | PutTask seg => put_task seg tasks
  | DeleteTask seg => delete_task seg tasks
  end.

(** [app.listen(PORT, ...)]: the callback logs the same line twice. *)
Definition listen (port : Z) : startup :=
  {| listens_on := port;
     logged := [String.append "Server running at http://localhost:"
                              (to_string port);
                String.append "Server running at http://localhost:"
                              (to_string port)] |}.

Definition main : startup := listen PORT.

End Part000.

(** ** Runs of the server *)

Module Server.
Import JS Http.

(** One request together with the clock reading at its arrival. *)
Definition event : Type := Z * request.

(** Requests are handled one after the other, each to completion. *)
Fixpoint run (evs : list event) (tasks : list task)
  : list response * list task :=
  match evs with
  | [] => ([], tasks)
  | (now, req) :: rest =>
      let '(res, tasks) := IndexJs.handle now req tasks in
      let '(ress, tasks) := run rest tasks in
      (res :: ress, tasks)
  end.

(** The registry states the server can be in: it starts empty. *)
Definition reachable (tasks : list task) : Prop :=
  ∃ evs, (run evs []).2 = tasks.

Definition is_delete (req : request) : bool :=
  match req with DeleteTask _ => true | _ => false end.

(** The tasks carried by the 201 responses of a run, in order. *)
Fixpoint created (ress : list response) : list task :=
  match ress with
  | [] => []
  | res :: rest =>
      match body res with
      | JsonTask t => if status res =? 201 then t :: created rest else created rest
      | _ => created rest
      end
  end.

End Server.

(** ** Notions used in the statements *)

Import JS Http Server.

(** What identifies a task through later toggles: its id and its title. *)
Definition identity (t : task) : Z * value := (id t, title t).

(** Number of 201 responses of a run: its successful creates. *)
Definition successful_creates (ress : list response) : nat :=
  length (filter (λ res, status res = 201) ress).

(** The integers that a Number holds exactly; every time value that
    [Date.now()] can return (at most 8.64e15 in absolute value) is one. *)
Definition safe_integer (z : Z) : Prop := Z.abs z < 2 ^ 53.

(** [Number.isInteger]: the Number is finite and has no fractional part. *)
Definition is_integer (n : number) : bool :=
  match n with
  | S754_zero _ => true
  | S754_finite _ m e => if 0 <=? e then true else Z.pos m mod 2 ^ (- e) =? 0
  | S754_infinity _ | S754_nan => false
  end.

(** The 53-bit mantissa of the Number for a positive integer below 2^53. *)
Definition mantissa (p : positive) : positive :=
  match (53 - Z.pos (digits2_pos p))%Z with
  | Z.pos k => Pos.iter xO p k
  | _ => p
  end.

(** The clock reading of every request of a run is later than [last] and
    than the readings of the requests before it. *)
Fixpoint clock_advances (last : Z) (evs : list event) : Prop :=
  match evs with
  | [] => True
  | (now, _) :: rest => last < now ∧ clock_advances now rest
  end.

(** Following the words of the specification, [:id] parsed as an integer:
    a segment is numeric when it is an optional sign followed by one or more
    decimal digits. *)
Definition spec_numeric_segment (seg : jsstring) : bool :=
  let digits :=
    match seg with
    | c :: r => if (c =? 43)%N || (c =? 45)%N then r else seg
    | [] => seg
    end in
  match digits with
  | [] => false
  | _ => forallb is_digit digits
  end.

(** The values that [if (!title)] turns away: [undefined], [null], [false],
    the two zeros, [NaN] and the empty string. *)
Definition falsy_values : list value :=
  [VUndefined; VNull; VBool false; VNum (S754_zero false);
   VNum (S754_zero true); VNum NaN; VStr []].

(** What [find] followed by the write to [task.completed] does to the array:
    the first task with the id has its flag flipped, all others stay. *)
Fixpoint toggle_first (n : number) (tasks : list task) : list task :=
  match tasks with
  | [] => []
  | t :: rest =>
      if id_matches n t then set_completed (negb (completed t)) t :: rest
      else t :: toggle_first n rest
  end.

(** ** Requests and runs used as examples *)

Definition buy_milk : reqbody :=
  BodyObject [(lit "title", VStr (lit "Buy milk"))].

Definition walk_dog : reqbody :=
  BodyObject [(lit "title", VStr (lit "Walk dog"))].

(** The scenario of the specification: create, toggle twice, delete, list. *)
Definition scenario : list event :=
  [ (1700000000000, PostTasks buy_milk);
    (1700000000001, PutTask (lit "1700000000000"));
    (1700000000002, PutTask (lit "1700000000000"));
    (1700000000003, DeleteTask (lit "1700000000000"));
    (1700000000004, GetTasks) ].

(** Two POST requests that arrive within the same millisecond. *)
Definition same_millisecond : list event :=
  [ (1700000000000, PostTasks buy_milk);
    (1700000000000, PostTasks walk_dog) ].

(** Three successful creates, a rejected one and a toggle. *)
Definition three_creates : list event :=
  [ (1700000000000, PostTasks buy_milk);
    (1700000000001, PostTasks (BodyObject []));
    (1700000000002, PostTasks walk_dog);
    (1700000000003, PutTask (lit "1700000000000"));
    (1700000000004, PostTasks buy_milk) ].

(** ** Properties *)

(** *** Numbers of integers *)

Lemma digits2_iter_xO (k m : positive) :
  digits2_pos (Pos.iter xO m k) = (digits2_pos m + k)%positive.
Proof.
  induction k as [|k IH] using Pos.peano_ind.
  - simpl. lia.
  - rewrite Pos.iter_succ. simpl. rewrite IH. lia.
Qed.

Lemma iter_xO_value (k m : positive) :
  Z.pos (Pos.iter xO m k) = Z.pos m * 2 ^ Z.pos k.
Proof.
  induction k as [|k IH] using Pos.peano_ind.
  - simpl. lia.
  - rewrite Pos.iter_succ, Pos2Z.inj_xO, IH, Pos2Z.inj_succ, Z.pow_succ_r by lia.
    ring.
Qed.

Lemma digits2_lower (p : positive) : 2 ^ (Z.pos (digits2_pos p) - 1) <= Z.pos p.
Proof.
  induction p as [p IH|p IH|]; cbn [digits2_pos];
    rewrite ?Pos2Z.inj_succ; try (simpl; lia).
  all: replace (Z.succ (Z.pos (digits2_pos p)) - 1)
         with (Z.succ (Z.pos (digits2_pos p) - 1)) by lia.
  all: rewrite Z.pow_succ_r by lia; lia.
Qed.

Lemma digits2_le_53 (p : positive) :
  Z.pos p < 2 ^ 53 → Z.pos (digits2_pos p) <= 53.
Proof.
  intros Hlt. pose proof (digits2_lower p).
  destruct (Z_le_gt_dec (Z.pos (digits2_pos p)) 53) as [|Hgt]; [done|].
  assert (2 ^ 53 <= 2 ^ (Z.pos (digits2_pos p) - 1))
    by (apply Z.pow_le_mono_r; lia).
  lia.
Qed.

(** A mantissa of exactly 53 bits with an exponent in range is not rounded. *)
Lemma round_aux_exact (neg : bool) (m : positive) (e : Z) :
  Z.pos (digits2_pos m) = 53 → -1074 <= e <= 971 →
  binary_round_aux prec emax neg (Z.pos m) e loc_Exact = S754_finite neg m e.
Proof.
  intros Hd He.
  unfold binary_round_aux, shr_fexp, fexp, emin, prec, emax.
  cbn [Zdigits2 shr_record_of_loc]. rewrite Hd.
  replace (Z.max (53 + e - 53) (3 - 1024 - 53) - e) with 0 by lia.
  cbn [shr shr_m loc_of_shr_record round_nearest_even Zdigits2]. rewrite Hd.
  replace (Z.max (53 + e - 53) (3 - 1024 - 53) - e) with 0 by lia.
  cbn [shr shr_m].
  destruct (Z.leb_spec e (1024 - 53)); [done | lia].
Qed.

(** An integer below 2^53 is shifted into 53 bits, not rounded. *)
Lemma round_small (neg : bool) (p : positive) :
  Z.pos p < 2 ^ 53 →
  binary_round prec emax neg p 0
  = S754_finite neg (mantissa p) (Z.pos (digits2_pos p) - 53).
Proof.
  intros Hlt. pose proof (digits2_le_53 p Hlt) as Hd.
  unfold binary_round, shl_align, mantissa.
  replace (fexp prec emax (Z.pos (digits2_pos p) + 0))
    with (Z.pos (digits2_pos p) - 53)
    by (unfold fexp, emin, prec, emax; lia).
  rewrite Z.sub_0_r.
  destruct (Z.pos (digits2_pos p) - 53) as [|k|k] eqn:E.
  - replace (53 - Z.pos (digits2_pos p)) with 0 by lia.
    apply round_aux_exact; lia.
  - lia.
  - replace (53 - Z.pos (digits2_pos p)) with (Z.pos k) by lia.
    apply round_aux_exact; [|lia].
    rewrite digits2_iter_xO. lia.
Qed.

Lemma mantissa_value (p : positive) :
  Z.pos p < 2 ^ 53 →
  Z.pos (mantissa p) = Z.pos p * 2 ^ (53 - Z.pos (digits2_pos p)).
Proof.
  intros Hlt. pose proof (digits2_le_53 p Hlt) as Hd. unfold mantissa.
  destruct (53 - Z.pos (digits2_pos p)) as [|k|k] eqn:E.
  - simpl. lia.
  - apply iter_xO_value.
  - lia.
Qed.

(** [===] holds between two zeros and between equal values only. *)
Lemma strict_eq_inv (x y : number) :
  strict_eq x y = true →
  (∃ s1 s2, x = S754_zero s1 ∧ y = S754_zero s2) ∨ x = y.
Proof.
  unfold strict_eq, SFeqb.
  destruct x as [s1|s1| |s1 m1 e1], y as [s2|s2| |s2 m2 e2];
    cbn [SFcompare]; intros H.
  all: try discriminate H.
  all: try (left; by eexists _, _).
  all: try (destruct s1; discriminate H).
  all: try (destruct s2; discriminate H).
  - destruct s1, s2; try discriminate H; by right.
  - change (Pos.compare_cont Eq m1 m2) with (Pos.compare m1 m2) in H.
    destruct s1, s2; try discriminate H;
      destruct (Z.compare_spec e1 e2); try discriminate H;
      destruct (Pos.compare_spec m1 m2); try discriminate H; subst; by right.
Qed.

(** Distinct safe integers are distinct Numbers. *)
Lemma of_Z_inj (a b : Z) :
  safe_integer a → safe_integer b → of_Z a = of_Z b → a = b.
Proof.
  unfold safe_integer, of_Z, binary_normalize.
  destruct a as [|p|p], b as [|q|q]; intros Ha Hb; try done;
    rewrite ?round_small by lia; try done.
  all: intros [= Hm He].
  all: assert (Z.pos (mantissa p) = Z.pos (mantissa q)) as Hv by congruence.
  all: rewrite !mantissa_value in Hv by lia.
  all: assert (Z.pos (digits2_pos p) = Z.pos (digits2_pos q)) as Hd by lia.
  all: rewrite Hd in Hv.
  all: pose proof (digits2_le_53 q ltac:(lia)).
  all: assert (0 < 2 ^ (53 - Z.pos (digits2_pos q)))
         by (apply Z.pow_pos_nonneg; lia).
  all: f_equal; nia.
Qed.

Lemma of_Z_zero (a : Z) (s : bool) :
  safe_integer a → of_Z a = S754_zero s → a = 0.
Proof.
  unfold safe_integer, of_Z, binary_normalize.
  destruct a as [|p|p]; intros Ha; try done; rewrite round_small by lia; done.
Qed.

(** Two tasks with safe ids that both match a parsed id have the same id. *)
Lemma id_matches_same_id (n : number) (t u : task) :
  safe_integer (id t) → safe_integer (id u) →
  id_matches n t = true → id_matches n u = true → id t = id u.
Proof.
  unfold id_matches. intros Ht Hu Hmt Hmu.
  apply strict_eq_inv in Hmt as [(s1 & s2 & Ht0 & Hn)|Hmt];
    apply strict_eq_inv in Hmu as [(s3 & s4 & Hu0 & Hn')|Hmu].
  - rewrite (of_Z_zero _ _ Ht Ht0). by rewrite (of_Z_zero _ _ Hu Hu0).
  - rewrite (of_Z_zero _ _ Ht Ht0). rewrite Hn in Hmu.
    by rewrite (of_Z_zero _ _ Hu Hmu).
  - rewrite (of_Z_zero _ _ Hu Hu0). rewrite Hn' in Hmt.
    by rewrite (of_Z_zero _ _ Ht Hmt).
  - apply of_Z_inj; congruence.
Qed.


(** *** Preliminaries *)

Lemma set_completed_involutive (t : task) :
  set_completed (negb (negb (completed t))) t = t.
Proof. destruct t as [i ti c]. unfold set_completed. simpl. by rewrite negb_involutive. Qed.

Lemma id_matches_set_completed (n : number) (b : bool) (t : task) :
  id_matches n (set_completed b t) = id_matches n t.
Proof. reflexivity. Qed.

(** [NaN] is strictly equal to nothing, itself included. *)
Lemma strict_eq_NaN_r (a : number) : strict_eq a NaN = false.
Proof. by destruct a. Qed.

(** A task whose id matches is found, and it is the first such task. *)
Lemma find_first_match (n : number) (tasks : list task) (t : task) :
  t ∈ tasks → id_matches n t = true →
  ∃ i u, list_find (λ task, id_matches n task = true) tasks = Some (i, u).
Proof.
  intros Hin Hm.
  destruct (list_find_elem_of (λ task, id_matches n task = true) tasks t Hin Hm)
    as [[i u] Hf].
  by exists i, u.
Qed.

(** When no task matches, [find] returns [undefined]. *)
Lemma find_no_match (n : number) (tasks : list task) :
  (∀ t, t ∈ tasks → id_matches n t = false) →
  list_find (λ task, id_matches n task = true) tasks = None.
Proof.
  intros Hno. apply list_find_None, Forall_forall.
  intros t Hin Hm. specialize (Hno t Hin). congruence.
Qed.

(** When no task matches, [filter] keeps the whole array. *)
Lemma filter_no_match (n : number) (tasks : list task) :
  (∀ t, t ∈ tasks → id_matches n t = false) →
  filter (λ task, id_matches n task ≠ true) tasks = tasks.
Proof.
  induction tasks as [|t tasks IH]; intros Hno; [done|].
  rewrite filter_cons_True.
  - f_equal. apply IH. intros u Hu. apply Hno. by right.
  - rewrite (Hno t); [done | by left].
Qed.

(** What a successful POST does, for any truthy title. *)
Lemma post_tasks_created (now : Z) (b : reqbody) (tasks : list task) :
  to_boolean (destructure_title b) = true →
  let t := {| id := now; title := destructure_title b; completed := false |} in
  IndexJs.post_tasks now b tasks = (Response 201 (JsonTask t), tasks ++ [t]).
Proof.
  intros Ht. destruct b as [fields|items|]; [| |discriminate Ht];
    unfold IndexJs.post_tasks; by rewrite Ht.
Qed.

(** What a rejected POST does, for any falsy title of a parsed body. *)
Lemma post_tasks_rejected (now : Z) (b : reqbody) (tasks : list task) :
  b ≠ BodyUndefined →
  to_boolean (destructure_title b) = false →
  IndexJs.post_tasks now b tasks
  = (Response 400 (JsonError "Title is required"), tasks).
Proof.
  intros Hb Ht. destruct b as [fields|items|]; [| |done];
    unfold IndexJs.post_tasks; by rewrite Ht.
Qed.

(** What POST does when [req.body] is [undefined]: it throws. *)
Lemma post_tasks_uncaught (now : Z) (tasks : list task) :
  IndexJs.post_tasks now BodyUndefined tasks = (uncaught, tasks).
Proof. reflexivity. Qed.

(** POST never removes or rewrites a task: it appends one or does nothing. *)
Lemma post_tasks_cases (now : Z) (b : reqbody) (tasks : list task) :
  (b = BodyUndefined ∧ IndexJs.post_tasks now b tasks = (uncaught, tasks))
  ∨ (b ≠ BodyUndefined ∧ to_boolean (destructure_title b) = false
     ∧ IndexJs.post_tasks now b tasks
       = (Response 400 (JsonError "Title is required"), tasks))
  ∨ (b ≠ BodyUndefined ∧ to_boolean (destructure_title b) = true
     ∧ IndexJs.post_tasks now b tasks
       = (Response 201 (JsonTask (Task now (destructure_title b) false)),
          tasks ++ [Task now (destructure_title b) false])).
Proof.
  destruct b as [fields|items|]; [| |by left].
  all: destruct (to_boolean (destructure_title _)) eqn:Ht.
  all: try (right; right; split; [done|]; split; [done|];
            by apply post_tasks_created).
  all: right; left; split; [done|]; split; [done|];
       by apply post_tasks_rejected.
Qed.

(** What a successful PUT does, in terms of the slot that [find] returned. *)
Lemma put_task_found (seg : jsstring) (tasks : list task) (i : nat) (t : task) :
  list_find (λ task, id_matches (Number seg) task = true) tasks = Some (i, t) →
  IndexJs.put_task seg tasks
  = (Response 200 (JsonTask (set_completed (negb (completed t)) t)),
     <[i := set_completed (negb (completed t)) t]> tasks).
Proof. intros Hf. unfold IndexJs.put_task. by rewrite Hf. Qed.

(** Writing the flag of the found task leaves it the first match. *)
Lemma find_after_toggle (n : number) (tasks : list task) (i : nat) (t : task) (b : bool) :
  list_find (λ task, id_matches n task = true) tasks = Some (i, t) →
  list_find (λ task, id_matches n task = true) (<[i := set_completed b t]> tasks)
  = Some (i, set_completed b t).
Proof.
  intros (Hi & Hm & Hfirst)%list_find_Some.
  apply list_find_Some. split_and!.
  - apply list_lookup_insert_eq. by eapply lookup_lt_Some.
  - by rewrite id_matches_set_completed.
  - intros j u Hj Hlt. rewrite list_lookup_insert_ne in Hj by lia.
    by eapply Hfirst.
Qed.

(** A run handles its first request, then the rest on the registry that
    this request left. *)
Lemma run_cons (now : Z) (req : request) (evs : list event) (tasks : list task) :
  run ((now, req) :: evs) tasks
  = ((IndexJs.handle now req tasks).1 :: (run evs (IndexJs.handle now req tasks).2).1,
     (run evs (IndexJs.handle now req tasks).2).2).
Proof.
  cbn [run]. destruct (IndexJs.handle now req tasks) as [res tasks1].
  cbn [fst snd]. by destruct (run evs tasks1).
Qed.

(** *** The scenario of the specification *)

Example scenario_run :
  let milk b := {| id := 1700000000000; title := VStr (lit "Buy milk"); completed := b |} in
  run scenario []
  = ([ Response 201 (JsonTask (milk false));
       Response 200 (JsonTask (milk true));
       Response 200 (JsonTask (milk false));
       Response 200 (JsonMessage "Task deleted successfully");
       Response 200 (JsonTasks []) ], []).
Proof. vm_compute. reflexivity. Qed.

(** *** Creating tasks *)

(** C1: creating a task is claimed to allocate a new id. With the registry
    holding the task created at clock reading 1700000000000, a second
    successful create at the same reading answers 201 with a task that is
    appended with [completed = false], but whose id is the id of the task
    already in the registry. *)
Theorem post_tasks_reuses_id :
  let tasks := (run [(1700000000000, PostTasks buy_milk)] []).2 in
  ∃ t,
    IndexJs.post_tasks 1700000000000 walk_dog tasks
    = (Response 201 (JsonTask t), tasks ++ [t])
    ∧ completed t = false
    ∧ ∃ old, old ∈ tasks ∧ id old = id t.
Proof.
  eexists. split; [reflexivity|]. split; [reflexivity|].
  eexists. split; [by left | reflexivity].
Qed.

(** C2: ids are claimed pairwise distinct in every reachable registry. The
    registry reached by two creates in one millisecond holds two tasks with
    the same id. *)
Theorem duplicate_ids_reachable :
  ∃ tasks, reachable tasks ∧ length tasks = 2%nat ∧ ¬ NoDup (id <$> tasks).
Proof.
  exists (run same_millisecond []).2. split; [by exists same_millisecond|].
  split; [reflexivity|].
  intros Hnd. vm_compute in Hnd.
  apply NoDup_cons in Hnd as [Hnotin _]. apply Hnotin. by left.
Qed.

(** The part of the invariant that does hold: every title in a reachable
    registry is truthy, so none is the empty string. *)
Lemma handle_titles_truthy (now : Z) (req : request) (tasks : list task) :
  Forall (λ t, to_boolean (title t) = true) tasks →
  Forall (λ t, to_boolean (title t) = true) (IndexJs.handle now req tasks).2.
Proof.
  intros Hall. destruct req as [| |b|seg|seg]; simpl; try done.
  - destruct (post_tasks_cases now b tasks)
      as [[_ ->]|[(_ & _ & ->)|(_ & Ht & ->)]]; simpl; [done..|].
    apply Forall_app. split; [done|]. by constructor.
  - unfold IndexJs.put_task.
    destruct (list_find _ tasks) as [[i t]|] eqn:Hf; simpl; [|done].
    apply list_find_Some in Hf as (Hi & _ & _).
    apply Forall_insert; [done|].
    by apply (Forall_lookup_1 _ _ _ _ Hall Hi).
  - unfold IndexJs.delete_task. simpl.
    apply Forall_forall. intros t [_ Hin]%list_elem_of_filter.
    rewrite Forall_forall in Hall. by apply Hall.
Qed.

Lemma run_titles_truthy (evs : list event) (tasks : list task) :
  Forall (λ t, to_boolean (title t) = true) tasks →
  Forall (λ t, to_boolean (title t) = true) (run evs tasks).2.
Proof.
  revert tasks. induction evs as [|[now req] evs IH]; intros tasks Hall; [done|].
  simpl. pose proof (handle_titles_truthy now req tasks Hall) as Hstep.
  destruct (IndexJs.handle now req tasks) as [res tasks1].
  specialize (IH tasks1 Hstep).
  by destruct (run evs tasks1) as [ress tasks2].
Qed.

Lemma reachable_title_not_empty (tasks : list task) (t : task) :
  reachable tasks → t ∈ tasks → title t ≠ VStr [].
Proof.
  intros [evs <-] Hin Hempty.
  pose proof (run_titles_truthy evs [] (Forall_nil_2 _)) as Hall.
  rewrite Forall_forall in Hall. specialize (Hall t Hin).
  by rewrite Hempty in Hall.
Qed.

(** *** Deleting tasks *)

(** DELETE always answers 200 with the success message. *)
Lemma delete_task_response (seg : jsstring) (tasks : list task) :
  (IndexJs.delete_task seg tasks).1
  = Response 200 (JsonMessage "Task deleted successfully").
Proof. reflexivity. Qed.

(** X8: when the ids of the registry are pairwise distinct safe integers,
    DELETE removes at most one task, whatever the segment. *)
Lemma delete_task_removes_at_most_one (seg : jsstring) (tasks : list task) :
  NoDup (id <$> tasks) → Forall (λ t, safe_integer (id t)) tasks →
  (length tasks ≤ S (length (IndexJs.delete_task seg tasks).2))%nat.
Proof.
  unfold IndexJs.delete_task. cbn [snd].
  induction tasks as [|t tasks IH]; intros Hnd Hsafe; [simpl; lia|].
  rewrite fmap_cons in Hnd. apply NoDup_cons in Hnd as [Hnotin Hnd].
  apply Forall_cons in Hsafe as [Ht Hsafe].
  rewrite filter_cons. destruct (decide (id_matches (Number seg) t ≠ true)) as [Hno|Hyes].
  - specialize (IH Hnd Hsafe). simpl. lia.
  - apply dec_stable in Hyes. rewrite filter_no_match; [simpl; lia|].
    intros u Hu. destruct (id_matches (Number seg) u) eqn:Hmu; [|done].
    exfalso. apply Hnotin.
    rewrite (id_matches_same_id _ t u Ht) by
      (try done; by apply (proj1 (Forall_forall _ _) Hsafe)).
    by apply list_elem_of_fmap_2.
Qed.

(** C3: DELETE is claimed to remove at most one task. On the registry reached
    by two creates in one millisecond, one DELETE answers 200 and removes
    both tasks. *)
Theorem delete_task_removes_two :
  let tasks := (run same_millisecond []).2 in
  length tasks = 2%nat
  ∧ IndexJs.delete_task (lit "1700000000000") tasks
    = (Response 200 (JsonMessage "Task deleted successfully"), []).
Proof. split; vm_compute; reflexivity. Qed.

(** *** Toggling completion *)

(** C4: when some task of the registry has the id of the request, two PUT
    requests in a row leave the registry exactly as it was; the first answers
    with the task's flag flipped, the second with the task as it was before. *)
Theorem put_task_twice (seg : jsstring) (tasks : list task) :
  (∃ t, t ∈ tasks ∧ id_matches (Number seg) t = true) →
  ∃ t, t ∈ tasks
    ∧ (IndexJs.put_task seg tasks).1
      = Response 200 (JsonTask (set_completed (negb (completed t)) t))
    ∧ IndexJs.put_task seg (IndexJs.put_task seg tasks).2
      = (Response 200 (JsonTask t), tasks).
Proof.
  intros (t0 & Hin & Hm).
  destruct (find_first_match _ _ _ Hin Hm) as (i & t & Hf).
  pose proof Hf as (Hi & _ & _)%list_find_Some.
  exists t. split; [by eapply list_elem_of_lookup_2|].
  rewrite (put_task_found _ _ _ _ Hf). simpl. split; [done|].
  rewrite (put_task_found _ _ i (set_completed (negb (completed t)) t))
    by by apply find_after_toggle.
  simpl. rewrite list_insert_insert_eq.
  change (set_completed (negb (negb (completed t))) (set_completed (negb (completed t)) t))
    with (set_completed (negb (negb (completed t))) t).
  rewrite set_completed_involutive. by rewrite list_insert_id.
Qed.

Lemma put_task_twice_witness :
  let tasks := (run [(1700000000000, PostTasks buy_milk)] []).2 in
  (∃ t, t ∈ tasks ∧ id_matches (Number (lit "1700000000000")) t = true)
  ∧ ∃ t, t ∈ tasks
    ∧ (IndexJs.put_task (lit "1700000000000") tasks).1
      = Response 200 (JsonTask (set_completed (negb (completed t)) t))
    ∧ IndexJs.put_task (lit "1700000000000")
        (IndexJs.put_task (lit "1700000000000") tasks).2
      = (Response 200 (JsonTask t), tasks).
Proof.
  assert (Hex : ∃ t, t ∈ (run [(1700000000000, PostTasks buy_milk)] []).2
                     ∧ id_matches (Number (lit "1700000000000")) t = true).
  { eexists. split; [by left | vm_compute; reflexivity]. }
  split; [exact Hex | exact (put_task_twice _ _ Hex)].
Defined.

(** C10: a successful PUT changes nothing but the [completed] field of the
    task it found: that task keeps its id and title, the registry keeps its
    length, and every other slot holds the task it held before. *)
Theorem put_task_frame (seg : jsstring) (tasks : list task) :
  (∃ t, t ∈ tasks ∧ id_matches (Number seg) t = true) →
  ∃ i t t',
    tasks !! i = Some t
    ∧ id_matches (Number seg) t = true
    ∧ (IndexJs.put_task seg tasks).1 = Response 200 (JsonTask t')
    ∧ id t' = id t ∧ title t' = title t ∧ completed t' = negb (completed t)
    ∧ length (IndexJs.put_task seg tasks).2 = length tasks
    ∧ (IndexJs.put_task seg tasks).2 !! i = Some t'
    ∧ ∀ j, j ≠ i → (IndexJs.put_task seg tasks).2 !! j = tasks !! j.
Proof.
  intros (t0 & Hin & Hm).
  destruct (find_first_match _ _ _ Hin Hm) as (i & t & Hf).
  pose proof Hf as (Hi & Hmt & _)%list_find_Some.
  exists i, t, (set_completed (negb (completed t)) t).
  rewrite (put_task_found _ _ _ _ Hf). simpl.
  split_and!; try done.
  - apply length_insert.
  - apply list_lookup_insert_eq. by eapply lookup_lt_Some.
  - intros j Hj. by apply list_lookup_insert_ne.
Qed.

Lemma put_task_frame_witness :
  let tasks := (run same_millisecond []).2 in
  let seg := lit "1700000000000" in
  (∃ t, t ∈ tasks ∧ id_matches (Number seg) t = true)
  ∧ ∃ i t t',
    tasks !! i = Some t
    ∧ id_matches (Number seg) t = true
    ∧ (IndexJs.put_task seg tasks).1 = Response 200 (JsonTask t')
    ∧ id t' = id t ∧ title t' = title t ∧ completed t' = negb (completed t)
    ∧ length (IndexJs.put_task seg tasks).2 = length tasks
    ∧ (IndexJs.put_task seg tasks).2 !! i = Some t'
    ∧ ∀ j, j ≠ i → (IndexJs.put_task seg tasks).2 !! j = tasks !! j.
Proof.
  assert (Hex : ∃ t, t ∈ (run same_millisecond []).2
                     ∧ id_matches (Number (lit "1700000000000")) t = true).
  { eexists. split; [by left | vm_compute; reflexivity]. }
  split; [exact Hex | exact (put_task_frame _ _ Hex)].
Defined.

(** C6: when no task of the registry has the id of the request, PUT answers
    404 with the error [Task not found] and the registry is unchanged. *)
Theorem put_task_not_found (seg : jsstring) (tasks : list task) :
  (∀ t, t ∈ tasks → id_matches (Number seg) t = false) →
  IndexJs.put_task seg tasks
  = (Response 404 (JsonError "Task not found"), tasks).
Proof.
  intros Hno. unfold IndexJs.put_task. by rewrite (find_no_match _ _ Hno).
Qed.

Lemma put_task_not_found_witness :
  let tasks := (run same_millisecond []).2 in
  (∀ t, t ∈ tasks → id_matches (Number (lit "1700000000001")) t = false)
  ∧ IndexJs.put_task (lit "1700000000001") tasks
    = (Response 404 (JsonError "Task not found"), tasks).
Proof.
  assert (Hno : ∀ t, t ∈ (run same_millisecond []).2
                     → id_matches (Number (lit "1700000000001")) t = false).
  { intros t Hin. apply list_elem_of_In in Hin.
    destruct Hin as [<-|[<-|[]]]; vm_compute; reflexivity. }
  split; [exact Hno | exact (put_task_not_found _ _ Hno)].
Defined.

(** *** Rejected creation *)




(** *** Listing after creation *)

(** A request other than DELETE keeps every task in its place and appends
    the created task, if there is one. *)
Lemma handle_appends_created (now : Z) (req : request) (tasks : list task) :
  is_delete req = false →
  identity <$> (IndexJs.handle now req tasks).2
  = (identity <$> tasks) ++ (identity <$> created [(IndexJs.handle now req tasks).1])
  ∧ successful_creates [(IndexJs.handle now req tasks).1]
    = length (created [(IndexJs.handle now req tasks).1]).
Proof.
  intros Hnd. destruct req as [| |b|seg|seg]; simpl in *; try done.
  - by rewrite app_nil_r.
  - by rewrite app_nil_r.
  - destruct (post_tasks_cases now b tasks)
      as [[_ ->]|[(_ & _ & ->)|(_ & _ & ->)]]; simpl.
    + by rewrite app_nil_r.
    + by rewrite app_nil_r.
    + by rewrite fmap_app.
  - unfold IndexJs.put_task.
    destruct (list_find _ tasks) as [[i t]|] eqn:Hf; simpl.
    + rewrite app_nil_r. split; [|done].
      apply list_find_Some in Hf as (Hi & _ & _).
      rewrite list_fmap_insert. apply list_insert_id.
      by rewrite list_lookup_fmap, Hi.
    + by rewrite app_nil_r.
Qed.

Lemma created_cons (res : response) (ress : list response) :
  created (res :: ress) = created [res] ++ created ress.
Proof.
  destruct res as [st [s|ts|t|e|m|]]; simpl; try done.
  by destruct (st =? 201).
Qed.

Lemma successful_creates_cons (res : response) (ress : list response) :
  successful_creates (res :: ress)
  = (successful_creates [res] + successful_creates ress)%nat.
Proof.
  unfold successful_creates.
  change (res :: ress) with ([res] ++ ress). by rewrite filter_app, length_app.
Qed.

Lemma run_appends_created (evs : list event) (tasks : list task) :
  Forall (λ ev, is_delete ev.2 = false) evs →
  identity <$> (run evs tasks).2
  = (identity <$> tasks) ++ (identity <$> created (run evs tasks).1)
  ∧ successful_creates (run evs tasks).1 = length (created (run evs tasks).1).
Proof.
  revert tasks. induction evs as [|[now req] evs IH]; intros tasks Hnd.
  - simpl. by rewrite app_nil_r.
  - apply Forall_cons in Hnd as [Hreq Hrest]. simpl in Hreq.
    destruct (handle_appends_created now req tasks Hreq) as [Hstep Hn].
    cbn [run]. destruct (IndexJs.handle now req tasks) as [res tasks1].
    specialize (IH tasks1 Hrest).
    destruct (run evs tasks1) as [ress tasks2]. cbn [fst snd] in *.
    destruct IH as [IH IHn].
    rewrite created_cons, successful_creates_cons, fmap_app, length_app.
    split; [|by rewrite Hn, IHn].
    by rewrite IH, Hstep, <- app_assoc.
Qed.

(** C7: starting from the empty registry, after a run without DELETE in which
    N creates succeeded, [GET /tasks] answers 200 with exactly N tasks, and
    they are the created tasks in the order of their creation (ids and
    titles; the flags are those that later toggles left). *)
Theorem get_tasks_after_creates (evs : list event) :
  Forall (λ ev, is_delete ev.2 = false) evs →
  ∃ listed,
    (IndexJs.get_tasks (run evs []).2).1 = Response 200 (JsonTasks listed)
    ∧ length listed = successful_creates (run evs []).1
    ∧ identity <$> listed = identity <$> created (run evs []).1.
Proof.
  intros Hnd. destruct (run_appends_created evs [] Hnd) as [Hid Hn].
  exists (run evs []).2. split; [done|]. simpl in Hid. split; [|done].
  rewrite Hn. by rewrite <- (length_fmap identity), Hid, length_fmap.
Qed.

Lemma get_tasks_after_creates_witness :
  Forall (λ ev, is_delete ev.2 = false) three_creates
  ∧ successful_creates (run three_creates []).1 = 3%nat
  ∧ ∃ listed,
    (IndexJs.get_tasks (run three_creates []).2).1 = Response 200 (JsonTasks listed)
    ∧ length listed = successful_creates (run three_creates []).1
    ∧ identity <$> listed = identity <$> created (run three_creates []).1.
Proof.
  assert (Hnd : Forall (λ ev, is_delete ev.2 = false) three_creates).
  { repeat constructor. }
  split; [exact Hnd|]. split; [vm_compute; reflexivity|].
  exact (get_tasks_after_creates three_creates Hnd).
Defined.

(** When the run consists of creates only, the listed tasks are exactly the
    tasks that the 201 responses carried. *)
Lemma run_only_posts (evs : list event) (tasks : list task) :
  Forall (λ ev, ∃ b, ev.2 = PostTasks b) evs →
  (run evs tasks).2 = tasks ++ created (run evs tasks).1.
Proof.
  revert tasks. induction evs as [|[now req] evs IH]; intros tasks Hp.
  - simpl. by rewrite app_nil_r.
  - apply Forall_cons in Hp as [[b Hb] Hrest]. simpl in Hb. subst req.
    rewrite run_cons. cbn [fst snd IndexJs.handle].
    rewrite (IH _ Hrest), created_cons.
    destruct (post_tasks_cases now b tasks)
      as [[_ ->]|[(_ & _ & ->)|(_ & _ & ->)]]; simpl; [done..|].
    by rewrite <- app_assoc.
Qed.

(** X5: no request changes the id or the title of a task, or the order of
    the tasks. After a DELETE the registry holds the tasks that were there
    and whose id is not strictly equal to the Number of the segment, in
    their order; after any other request its (id, title) pairs are exactly
    those before it, followed by the pair of the task that a 201 response
    carries, if the response is one. *)
Lemma handle_keeps_identities (now : Z) (req : request) (tasks : list task) :
  match req with
  | DeleteTask seg =>
      (IndexJs.handle now req tasks).2
      = filter (λ t, strict_eq (of_Z (id t)) (Number seg) = false) tasks
      ∧ created [(IndexJs.handle now req tasks).1] = []
  | _ =>
      identity <$> (IndexJs.handle now req tasks).2
      = (identity <$> tasks)
        ++ (identity <$> created [(IndexJs.handle now req tasks).1])
      ∧ length (created [(IndexJs.handle now req tasks).1])
        = if status (IndexJs.handle now req tasks).1 =? 201 then 1%nat else 0%nat
  end.
Proof.
  destruct req as [| |b|seg|seg].
  1-4: split; [by apply handle_appends_created|].
  - done.
  - done.
  - simpl. by destruct (post_tasks_cases now b tasks)
      as [[_ ->]|[(_ & _ & ->)|(_ & _ & ->)]].
  - simpl. unfold IndexJs.put_task.
    by destruct (list_find _ tasks) as [[i t]|].
  - split; [|done]. simpl. apply list_filter_iff. intros t. unfold id_matches.
    by destruct (strict_eq (of_Z (id t)) (Number seg)).
Qed.

(** *** Distinct ids while the clock advances *)

(** A request keeps the ids pairwise distinct and no later than its clock
    reading, when that reading is later than every id of the registry. *)
Lemma handle_ids_distinct (last now : Z) (req : request) (tasks : list task) :
  last < now →
  NoDup (id <$> tasks) ∧ Forall (λ t, id t <= last) tasks →
  NoDup (id <$> (IndexJs.handle now req tasks).2)
  ∧ Forall (λ t, id t <= now) (IndexJs.handle now req tasks).2.
Proof.
  intros Hlt [Hnd Hle].
  assert (Hle' : Forall (λ t, id t <= now) tasks).
  { eapply Forall_impl; [exact Hle|]. simpl. intros t Ht. lia. }
  destruct req as [| |b|seg|seg]; simpl; try done.
  - destruct (post_tasks_cases now b tasks)
      as [[_ ->]|[(_ & _ & ->)|(_ & _ & ->)]]; simpl; [done..|].
    split.
    + rewrite fmap_app. apply NoDup_app. split_and!; [done| |apply NoDup_singleton].
      intros i (t & -> & Hin)%list_elem_of_fmap [Heq|[]%elem_of_nil]%elem_of_cons.
      rewrite Forall_forall in Hle. specialize (Hle t Hin). simpl in Heq, Hle. lia.
    + apply Forall_app. split; [done|]. constructor; [simpl; lia|done].
  - unfold IndexJs.put_task.
    destruct (list_find _ tasks) as [[i t]|] eqn:Hf; simpl; [|done].
    apply list_find_Some in Hf as (Hi & _ & _). split.
    + rewrite list_fmap_insert, list_insert_id; [done|].
      by rewrite list_lookup_fmap, Hi.
    + apply Forall_insert; [done|].
      by apply (Forall_lookup_1 _ _ _ _ Hle' Hi).
  - split.
    + apply (sublist_NoDup _ _ Hnd), fmap_sublist, sublist_filter.
    + apply Forall_forall. intros t [_ Hin]%list_elem_of_filter.
      rewrite Forall_forall in Hle'. by apply Hle'.
Qed.

(** X7: while the clock reading strictly increases from request to request,
    and starts later than every id already in the registry, the ids of the
    registry stay pairwise distinct. *)
Lemma run_ids_distinct (last : Z) (evs : list event) (tasks : list task) :
  clock_advances last evs →
  NoDup (id <$> tasks) ∧ Forall (λ t, id t <= last) tasks →
  NoDup (id <$> (run evs tasks).2).
Proof.
  revert last tasks. induction evs as [|[now req] evs IH]; intros last tasks Hclk Hinv.
  - by destruct Hinv.
  - destruct Hclk as [Hlt Hclk]. rewrite run_cons. cbn [snd].
    eapply IH; [exact Hclk|]. by eapply handle_ids_distinct.
Qed.

(** *** The two copies *)

(** C9, as stated, fails in its last clause: the files do not differ only
    in the listening port. Started on the same port, [src/index.js] logs one
    line, with the rocket, and [src/unnamed/part_000] logs its line twice,
    without it. *)
Lemma files_differ_beyond_port :
  logged IndexJs.main
  = [("🚀 Server running at http://localhost:5000" : String.string)]
  ∧ logged Part000.main
    = [("Server running at http://localhost:3000" : String.string);
       ("Server running at http://localhost:3000" : String.string)]
  ∧ listens_on (IndexJs.listen 3000) = listens_on Part000.main
  ∧ IndexJs.listen 3000 ≠ Part000.main
  ∧ length (logged (IndexJs.listen 3000)) ≠ length (logged Part000.main).
Proof.
  split; [vm_compute; reflexivity|]. split; [vm_compute; reflexivity|].
  split; [reflexivity|]. split; [|vm_compute; lia].
  intros Heq. apply (f_equal (λ st, length (logged st))) in Heq.
  vm_compute in Heq. discriminate Heq.
Qed.

(** C9, amended: on every request, clock reading and registry, the handlers
    of [src/index.js] and those of [src/unnamed/part_000] give the same
    response and the same registry. Outside the handlers the files differ in
    the port they listen on, 5000 and 3000, and in what they log at startup:
    on any port, [src/index.js] logs the line of [src/unnamed/part_000] with
    the rocket before it, once, and [src/unnamed/part_000] logs its line
    twice. *)
Theorem handlers_agree (now : Z) (req : request) (tasks : list task) :
  IndexJs.handle now req tasks = Part000.handle now req tasks
  ∧ listens_on IndexJs.main = 5000 ∧ listens_on Part000.main = 3000
  ∧ ∀ port,
      listens_on (IndexJs.listen port) = port
      ∧ listens_on (Part000.listen port) = port
      ∧ ∃ line,
          logged (Part000.listen port) = [line; line]
          ∧ logged (IndexJs.listen port) = [String.append "🚀 " line].
Proof.
  split; [by destruct req as [| |[]| |]|]. split; [done|]. split; [done|].
  intros port. split; [done|]. split; [done|].
  by eexists.
Qed.

(** *** Path segments that are not numbers *)

(** No task matches [NaN]. *)
Lemma id_matches_NaN (t : task) : id_matches NaN t = false.
Proof. apply strict_eq_NaN_r. Qed.

(** White space is dropped from the end of a string up to its last code unit
    that is none. *)
Lemma drop_whitespace_snoc (c : N) (s : jsstring) :
  is_whitespace c = false →
  ∃ kept, drop_whitespace (s ++ [c]) = kept ++ [c].
Proof.
  intros Hc. induction s as [|a s IH]; simpl.
  - rewrite Hc. by exists [].
  - destruct (is_whitespace a); [done|]. by exists (a :: s).
Qed.

(** A string whose first code unit is neither white space nor one that can
    start a numeric literal (a digit, a sign, a dot, the I of Infinity) is
    not a number. *)
Lemma Number_bad_start (c : N) (r : jsstring) :
  is_whitespace c = false → is_digit c = false →
  c ≠ 43%N → c ≠ 45%N → c ≠ 46%N → c ≠ 73%N →
  Number (c :: r) = NaN.
Proof.
  intros Hws Hdig Hplus Hminus Hdot HI.
  unfold Number, trim. cbn [drop_whitespace]. rewrite Hws.
  cbn [rev]. destruct (drop_whitespace_snoc c (rev r) Hws) as [kept ->].
  rewrite rev_unit. unfold parse_numeric.
  apply N.eqb_neq in Hplus, Hminus, Hdot. rewrite Hplus, Hminus.
  assert ((c =? 48)%N = false) as ->.
  { apply N.eqb_neq. intros ->. discriminate Hdig. }
  unfold parse_decimal, jsstring_eqb.
  rewrite bool_decide_eq_false_2.
  2:{ intros Heq. apply HI. by injection Heq. }
  unfold parse_unsigned_decimal. cbn [span_digits]. by rewrite Hdig, Hdot.
Qed.

(** A Number that is strictly equal to a safe integer is an integer. *)
Lemma strict_eq_is_integer (z : Z) (n : number) :
  safe_integer z → strict_eq (of_Z z) n = true → is_integer n = true.
Proof.
  intros Hz [(s1 & s2 & _ & ->)|<-]%strict_eq_inv; [done|].
  unfold safe_integer in Hz. unfold of_Z, binary_normalize.
  destruct z as [|p|p]; [done|..]; rewrite round_small by lia;
    pose proof (digits2_le_53 p ltac:(lia)) as Hd; unfold is_integer.
  all: destruct (Z.leb_spec 0 (Z.pos (digits2_pos p) - 53)); [done|].
  all: rewrite mantissa_value by lia.
  all: replace (- (Z.pos (digits2_pos p) - 53))
         with (53 - Z.pos (digits2_pos p)) by lia.
  all: rewrite Z.mod_mul; [done|].
  all: apply Z.pow_nonzero; lia.
Qed.

(** No task with a safe id matches a Number that is not an integer. *)
Lemma id_matches_not_integer (n : number) (t : task) :
  is_integer n = false → safe_integer (id t) → id_matches n t = false.
Proof.
  intros Hn Ht. unfold id_matches.
  destruct (strict_eq (of_Z (id t)) n) eqn:Heq; [|done].
  rewrite (strict_eq_is_integer _ _ Ht Heq) in Hn. discriminate Hn.
Qed.

(** C8, as stated, fails: a segment that is no integer literal can still be
    the id of a task. The segments [17e11], [1700000000000.0],
    [0x18BCFE56800] and the integer 1700000000000 between blanks are all
    read as 1700000000000 and find the task created at that clock reading:
    PUT answers 200 and DELETE removes the task. *)
Lemma non_numeric_segment_matches :
  let tasks := (run [(1700000000000, PostTasks buy_milk)] []).2 in
  let toggled := Task 1700000000000 (VStr (lit "Buy milk")) true in
  reachable tasks ∧ length tasks = 1%nat
  ∧ Forall (λ seg,
      spec_numeric_segment seg = false
      ∧ IndexJs.put_task seg tasks = (Response 200 (JsonTask toggled), [toggled])
      ∧ (IndexJs.delete_task seg tasks).2 = [])
    [lit "17e11"; lit "1700000000000.0"; lit "0x18BCFE56800";
     lit " 1700000000000 "].
Proof.
  split; [by eexists|]. split; [reflexivity|].
  repeat constructor; vm_compute; reflexivity.
Qed.

(** C8, amended: the segment is converted with [Number] and compared with
    [===] to the ids: PUT answers 404 exactly when no id is strictly equal
    to the Number of the segment, and DELETE keeps exactly the tasks whose
    id is not. Whenever that Number is not an integer (it is [NaN], an
    infinity, or has a fractional part) the id matches no task, in any
    registry whose ids are time values: PUT answers 404 and leaves the
    registry unchanged, DELETE answers 200 and leaves the registry
    unchanged. *)
Theorem non_integer_segment_matches_nothing (seg : jsstring) (tasks : list task) :
  ((IndexJs.put_task seg tasks).1 = Response 404 (JsonError "Task not found")
   ↔ ∀ t, t ∈ tasks → strict_eq (of_Z (id t)) (Number seg) = false)
  ∧ (∀ t, t ∈ (IndexJs.delete_task seg tasks).2
          ↔ t ∈ tasks ∧ strict_eq (of_Z (id t)) (Number seg) = false)
  ∧ (is_integer (Number seg) = false →
     Forall (λ t, safe_integer (id t)) tasks →
     (∀ t, t ∈ tasks → strict_eq (of_Z (id t)) (Number seg) = false)
     ∧ IndexJs.put_task seg tasks
       = (Response 404 (JsonError "Task not found"), tasks)
     ∧ IndexJs.delete_task seg tasks
       = (Response 200 (JsonMessage "Task deleted successfully"), tasks)).
Proof.
  split_and!.
  - split.
    + intros H404 t Hin.
      destruct (strict_eq (of_Z (id t)) (Number seg)) eqn:Hm; [|done].
      destruct (find_first_match _ _ _ Hin Hm) as (i & u & Hf).
      rewrite (put_task_found _ _ _ _ Hf) in H404. discriminate H404.
    + intros Hno. unfold IndexJs.put_task. by rewrite (find_no_match _ _ Hno).
  - intros t. unfold IndexJs.delete_task. cbn [snd].
    rewrite list_elem_of_filter. unfold id_matches.
    destruct (strict_eq (of_Z (id t)) (Number seg)); split; intros [H1 H2];
      by split.
  - intros Hn Hsafe.
    assert (Hno : ∀ t, t ∈ tasks → id_matches (Number seg) t = false).
    { intros t Hin. apply id_matches_not_integer; [done|].
      rewrite Forall_forall in Hsafe. by apply Hsafe. }
    split_and!; [exact Hno| |].
    + unfold IndexJs.put_task. by rewrite (find_no_match _ _ Hno).
    + unfold IndexJs.delete_task. by rewrite (filter_no_match _ _ Hno).
Qed.

Lemma non_integer_segment_matches_nothing_witness :
  let tasks := (run same_millisecond []).2 in
  Forall (λ t, safe_integer (id t)) tasks
  ∧ Forall (λ seg,
      spec_numeric_segment seg = false
      ∧ is_integer (Number seg) = false
      ∧ IndexJs.put_task seg tasks
        = (Response 404 (JsonError "Task not found"), tasks)
      ∧ IndexJs.delete_task seg tasks
        = (Response 200 (JsonMessage "Task deleted successfully"), tasks))
    [lit "abc"; lit "1.5"; lit "1e-3"; lit "Infinity"; lit "1700000000000.5"].
Proof.
  assert (Hsafe : Forall (λ t, safe_integer (id t)) (run same_millisecond []).2).
  { repeat constructor. }
  assert (H1 : is_integer (Number (lit "abc")) = false) by (vm_compute; reflexivity).
  assert (H2 : is_integer (Number (lit "1.5")) = false) by (vm_compute; reflexivity).
  assert (H3 : is_integer (Number (lit "1e-3")) = false) by (vm_compute; reflexivity).
  assert (H4 : is_integer (Number (lit "Infinity")) = false)
    by (vm_compute; reflexivity).
  assert (H5 : is_integer (Number (lit "1700000000000.5")) = false)
    by (vm_compute; reflexivity).
  split; [exact Hsafe|].
  repeat (apply Forall_cons; split); try apply Forall_nil_2.
  - split; [vm_compute; reflexivity|]. split; [exact H1|].
    exact (proj2 (proj2 (proj2 (non_integer_segment_matches_nothing _ _)) H1 Hsafe)).
  - split; [vm_compute; reflexivity|]. split; [exact H2|].
    exact (proj2 (proj2 (proj2 (non_integer_segment_matches_nothing _ _)) H2 Hsafe)).
  - split; [vm_compute; reflexivity|]. split; [exact H3|].
    exact (proj2 (proj2 (proj2 (non_integer_segment_matches_nothing _ _)) H3 Hsafe)).
  - split; [vm_compute; reflexivity|]. split; [exact H4|].
    exact (proj2 (proj2 (proj2 (non_integer_segment_matches_nothing _ _)) H4 Hsafe)).
  - split; [vm_compute; reflexivity|]. split; [exact H5|].
    exact (proj2 (proj2 (proj2 (non_integer_segment_matches_nothing _ _)) H5 Hsafe)).
Defined.

(** ** Further properties of the handlers *)

(** *** Status codes, errors and the size of the registry *)


(** X2: the registry grows only with a 201 response, and then by exactly one
    task; it shrinks only on DELETE; every other request keeps its length. *)
Theorem handle_length (now : Z) (req : request) (tasks : list task) :
  (status (IndexJs.handle now req tasks).1 = 201
   ∧ length (IndexJs.handle now req tasks).2 = S (length tasks))
  ∨ (status (IndexJs.handle now req tasks).1 ≠ 201
     ∧ is_delete req = true
     ∧ (length (IndexJs.handle now req tasks).2 ≤ length tasks)%nat)
  ∨ (status (IndexJs.handle now req tasks).1 ≠ 201
     ∧ is_delete req = false
     ∧ length (IndexJs.handle now req tasks).2 = length tasks).
Proof.
  destruct req as [| |b|seg|seg]; simpl.
  - right; right. done.
  - right; right. done.
  - destruct (post_tasks_cases now b tasks)
      as [[_ ->]|[(_ & _ & ->)|(_ & _ & ->)]]; simpl.
    + right; right. done.
    + right; right. done.
    + left. split; [done|]. rewrite length_app. simpl. lia.
  - unfold IndexJs.put_task.
    destruct (list_find _ tasks) as [[i t]|]; simpl.
    + right; right. split_and!; [done..|]. apply length_insert.
    + right; right. done.
  - right; left. split_and!; [done..|]. apply length_filter.
Qed.

(** X3: when [req.body] was parsed, POST turns away exactly the seven falsy
    titles, with 400 and the registry unchanged, and stores every other
    title, whatever its type, as it was sent, in a task appended with the
    clock reading as id and [completed = false]. When [req.body] is
    [undefined] POST throws: the answer is 500 and the registry is
    unchanged. *)
Theorem post_tasks_validation (now : Z) (b : reqbody) (tasks : list task) :
  (b = BodyUndefined
   ∧ IndexJs.post_tasks now b tasks = (Response 500 ErrorPage, tasks))
  ∨ (b ≠ BodyUndefined
     ∧ destructure_title b ∈ falsy_values
     ∧ IndexJs.post_tasks now b tasks
       = (Response 400 (JsonError "Title is required"), tasks))
  ∨ (b ≠ BodyUndefined
     ∧ (destructure_title b ∉ falsy_values)
     ∧ IndexJs.post_tasks now b tasks
       = (Response 201 (JsonTask (Task now (destructure_title b) false)),
          tasks ++ [Task now (destructure_title b) false])).
Proof.
  assert (Hfalsy : ∀ v, to_boolean v = false ↔ v ∈ falsy_values).
  { intros v. unfold falsy_values. split.
    - destruct v as [| |[]|[[]|s| |s m e]|[|c s]|items|fields]; try done;
        intros _; repeat constructor.
    - intros Hin.
      repeat (apply elem_of_cons in Hin as [->|Hin]; [done|]).
      by apply elem_of_nil in Hin. }
  destruct (post_tasks_cases now b tasks)
    as [[Hb Hr]|[(Hb & Ht & Hr)|(Hb & Ht & Hr)]].
  - by left.
  - right; left. split; [done|]. split; [by apply Hfalsy | done].
  - right; right. split; [done|]. split; [|done].
    intros Hin%Hfalsy. congruence.
Qed.

(** *** Invariants of the registry *)

(** X4: in every registry the server can reach, every title is truthy. *)
Theorem reachable_title_truthy (tasks : list task) (t : task) :
  reachable tasks → t ∈ tasks → to_boolean (title t) = true.
Proof.
  intros [evs <-] Hin.
  pose proof (run_titles_truthy evs [] (Forall_nil_2 _)) as Hall.
  rewrite Forall_forall in Hall. by apply Hall.
Qed.

Lemma reachable_title_truthy_witness :
  let tasks := (run three_creates []).2 in
  let t := Task 1700000000002 (VStr (lit "Walk dog")) false in
  reachable tasks ∧ t ∈ tasks ∧ to_boolean (title t) = true.
Proof.
  assert (Hr : reachable (run three_creates []).2) by (by eexists).
  assert (Hin : Task 1700000000002 (VStr (lit "Walk dog")) false
                ∈ (run three_creates []).2).
  { vm_compute. right. left. }
  split; [exact Hr|]. split; [exact Hin|].
  exact (reachable_title_truthy _ _ Hr Hin).
Defined.

(** X6: only PUT writes to a task. After any other request every task of the
    registry is a task that was there before, flag included, or the task
    that the request created, and the order is kept. *)
Theorem handle_without_put_keeps_tasks (now : Z) (req : request) (tasks : list task) :
  (∀ seg, req ≠ PutTask seg) →
  (IndexJs.handle now req tasks).2
  `sublist_of` tasks ++ created [(IndexJs.handle now req tasks).1].
Proof.
  intros Hnp. destruct req as [| |b|seg|seg]; simpl.
  - by rewrite app_nil_r.
  - by rewrite app_nil_r.
  - destruct (post_tasks_cases now b tasks)
      as [[_ ->]|[(_ & _ & ->)|(_ & _ & ->)]]; simpl; [| |done];
      by rewrite app_nil_r.
  - by destruct (Hnp seg).
  - rewrite app_nil_r. apply sublist_filter.
Qed.

Lemma handle_without_put_keeps_tasks_witness :
  let tasks := (run same_millisecond []).2 in
  let req := DeleteTask (lit "1700000000000") in
  (∀ seg, req ≠ PutTask seg)
  ∧ (IndexJs.handle 1700000000009 req tasks).2
    `sublist_of` tasks ++ created [(IndexJs.handle 1700000000009 req tasks).1].
Proof.
  assert (Hnp : ∀ seg, DeleteTask (lit "1700000000000") ≠ PutTask seg)
    by (intros seg; discriminate).
  split; [exact Hnp|].
  exact (handle_without_put_keeps_tasks _ _ _ Hnp).
Defined.

Lemma run_ids_distinct_witness :
  clock_advances 0 three_creates
  ∧ (NoDup (id <$> ([] : list task)) ∧ Forall (λ t, id t <= 0) ([] : list task))
  ∧ NoDup (id <$> (run three_creates []).2).
Proof.
  assert (Hclk : clock_advances 0 three_creates) by (simpl; lia).
  assert (Hinv : NoDup (id <$> ([] : list task))
                 ∧ Forall (λ t, id t <= 0) ([] : list task))
    by (split; constructor).
  split; [exact Hclk|]. split; [exact Hinv|].
  exact (run_ids_distinct 0 three_creates [] Hclk Hinv).
Defined.

Lemma delete_task_removes_at_most_one_witness :
  let tasks := (run three_creates []).2 in
  NoDup (id <$> tasks)
  ∧ Forall (λ t, safe_integer (id t)) tasks
  ∧ (length tasks ≤ S (length (IndexJs.delete_task (lit "1700000000002") tasks).2))%nat.
Proof.
  assert (Hnd : NoDup (id <$> (run three_creates []).2)).
  { vm_compute. repeat (apply NoDup_cons; split;
      [intros Hin; repeat (apply elem_of_cons in Hin as [Hin|Hin]; [discriminate Hin|]);
       by apply elem_of_nil in Hin|]).
    apply NoDup_nil; done. }
  assert (Hsafe : Forall (λ t, safe_integer (id t)) (run three_creates []).2).
  { repeat constructor. }
  split; [exact Hnd|]. split; [exact Hsafe|].
  exact (delete_task_removes_at_most_one _ _ Hnd Hsafe).
Defined.

(** *** Deleting, and creating then deleting *)

(** X9: DELETE removes exactly the tasks whose id matches and keeps the
    others in their order. Once it has run, no task matches any more: a
    second DELETE with the same segment changes nothing and a PUT with the
    same segment answers 404. *)
Theorem delete_task_postcondition (seg : jsstring) (tasks : list task) :
  (IndexJs.delete_task seg tasks).2 `sublist_of` tasks
  ∧ (∀ t, t ∈ (IndexJs.delete_task seg tasks).2
          ↔ t ∈ tasks ∧ id_matches (Number seg) t = false)
  ∧ IndexJs.delete_task seg (IndexJs.delete_task seg tasks).2
    = (Response 200 (JsonMessage "Task deleted successfully"),
       (IndexJs.delete_task seg tasks).2)
  ∧ IndexJs.put_task seg (IndexJs.delete_task seg tasks).2
    = (Response 404 (JsonError "Task not found"),
       (IndexJs.delete_task seg tasks).2).
Proof.
  assert (Hin : ∀ t, t ∈ (IndexJs.delete_task seg tasks).2
                     ↔ t ∈ tasks ∧ id_matches (Number seg) t = false).
  { intros t. unfold IndexJs.delete_task. cbn [snd].
    rewrite list_elem_of_filter.
    destruct (id_matches (Number seg) t); split; intros [H1 H2]; by split. }
  split_and!.
  - apply sublist_filter.
  - exact Hin.
  - unfold IndexJs.delete_task at 1. f_equal.
    apply filter_no_match. intros t Ht. by apply Hin in Ht as [_ Ht].
  - unfold IndexJs.put_task. rewrite find_no_match; [done|].
    intros t Ht. by apply Hin in Ht as [_ Ht].
Qed.

(** X10: creating a task and then deleting it gives back the registry, when
    the segment of the DELETE is read as the clock reading of the POST and no
    task that was there before has that id. *)
Theorem post_then_delete (now : Z) (b : reqbody) (seg : jsstring) (tasks : list task) :
  to_boolean (destructure_title b) = true →
  strict_eq (of_Z now) (Number seg) = true →
  (∀ t, t ∈ tasks → id_matches (Number seg) t = false) →
  (IndexJs.delete_task seg (IndexJs.post_tasks now b tasks).2).2 = tasks.
Proof.
  intros Ht Hnow Hno. rewrite (post_tasks_created _ _ _ Ht).
  unfold IndexJs.delete_task. cbn [snd].
  rewrite filter_app, (filter_no_match _ _ Hno), filter_cons_False, filter_nil.
  - apply app_nil_r.
  - intros Hne. apply Hne. exact Hnow.
Qed.

Lemma post_then_delete_witness :
  let tasks := (run three_creates []).2 in
  let seg := lit "1700000000005" in
  to_boolean (destructure_title walk_dog) = true
  ∧ strict_eq (of_Z 1700000000005) (Number seg) = true
  ∧ (∀ t, t ∈ tasks → id_matches (Number seg) t = false)
  ∧ (IndexJs.delete_task seg (IndexJs.post_tasks 1700000000005 walk_dog tasks).2).2
    = tasks.
Proof.
  assert (Ht : to_boolean (destructure_title walk_dog) = true)
    by (vm_compute; reflexivity).
  assert (Hnow : strict_eq (of_Z 1700000000005) (Number (lit "1700000000005")) = true)
    by (vm_compute; reflexivity).
  assert (Hno : ∀ t, t ∈ (run three_creates []).2
                     → id_matches (Number (lit "1700000000005")) t = false).
  { apply Forall_forall. repeat constructor. }
  split; [exact Ht|]. split; [exact Hnow|]. split; [exact Hno|].
  exact (post_then_delete _ _ _ _ Ht Hnow Hno).
Defined.

(** *** How PUT and DELETE compose *)

(** The registry that PUT leaves, as a recursion over the array. *)
Lemma put_task_state (seg : jsstring) (tasks : list task) :
  (IndexJs.put_task seg tasks).2 = toggle_first (Number seg) tasks.
Proof.
  unfold IndexJs.put_task.
  induction tasks as [|t tasks IH]; [done|].
  cbn [list_find toggle_first].
  destruct (decide (id_matches (Number seg) t = true)) as [Hm|Hm].
  - by rewrite Hm.
  - apply not_true_is_false in Hm. rewrite Hm.
    destruct (list_find _ tasks) as [[i u]|]; simpl in *; by f_equal.
Qed.

Lemma toggle_first_no_match (n : number) (tasks : list task) :
  (∀ t, t ∈ tasks → id_matches n t = false) → toggle_first n tasks = tasks.
Proof.
  induction tasks as [|t tasks IH]; intros Hno; [done|].
  simpl. rewrite (Hno t) by by left.
  f_equal. apply IH. intros u Hu. apply Hno. by right.
Qed.

Lemma toggle_first_involutive (n : number) (tasks : list task) :
  toggle_first n (toggle_first n tasks) = tasks.
Proof.
  induction tasks as [|t tasks IH]; [done|].
  simpl. destruct (id_matches n t) eqn:Hm; simpl.
  - rewrite id_matches_set_completed, Hm.
    destruct t as [i ti c]. unfold set_completed. simpl.
    by rewrite negb_involutive.
  - by rewrite Hm, IH.
Qed.

Lemma toggle_first_comm (n1 n2 : number) (tasks : list task) :
  toggle_first n1 (toggle_first n2 tasks) = toggle_first n2 (toggle_first n1 tasks).
Proof.
  induction tasks as [|t tasks IH]; [done|].
  simpl. destruct (id_matches n1 t) eqn:H1, (id_matches n2 t) eqn:H2; simpl;
    rewrite ?id_matches_set_completed, ?H1, ?H2; try done.
  by rewrite IH.
Qed.

(** Two parsed ids that match one task match the same tasks. *)
Lemma id_matches_same_tasks (n1 n2 : number) (t u : task) :
  id_matches n1 t = true → id_matches n2 t = true →
  id_matches n1 u = id_matches n2 u.
Proof.
  unfold id_matches. intros H1 H2.
  assert (Hzeros : ∀ s s', strict_eq (of_Z (id u)) (S754_zero s)
                           = strict_eq (of_Z (id u)) (S754_zero s')).
  { intros s s'. by destruct (of_Z (id u)). }
  apply strict_eq_inv in H1 as [(s1 & s2 & Ht1 & Hn1)|H1];
    apply strict_eq_inv in H2 as [(s3 & s4 & Ht2 & Hn2)|H2].
  - rewrite Hn1, Hn2. apply Hzeros.
  - rewrite Hn1, <- H2, Ht1. apply Hzeros.
  - rewrite Hn2, <- H1, Ht2. apply Hzeros.
  - congruence.
Qed.

Lemma toggle_first_filter (n1 n2 : number) (tasks : list task) :
  filter (λ task, id_matches n1 task ≠ true) (toggle_first n2 tasks)
  = toggle_first n2 (filter (λ task, id_matches n1 task ≠ true) tasks).
Proof.
  induction tasks as [|t tasks IH]; [done|].
  cbn [toggle_first]. destruct (id_matches n2 t) eqn:H2.
  - destruct (id_matches n1 t) eqn:H1.
    + rewrite !filter_cons_False
        by (rewrite ?id_matches_set_completed, H1; by intros []).
      rewrite toggle_first_no_match; [done|].
      intros u [Hu _]%list_elem_of_filter.
      rewrite <- (id_matches_same_tasks n1 n2 t u H1 H2).
      by apply not_true_is_false.
    + rewrite !filter_cons_True
        by (rewrite ?id_matches_set_completed, H1; done).
      cbn [toggle_first]. by rewrite H2.
  - destruct (id_matches n1 t) eqn:H1.
    + rewrite !filter_cons_False by (rewrite H1; by intros []). exact IH.
    + rewrite !filter_cons_True by (rewrite H1; done).
      cbn [toggle_first]. by rewrite H2, IH.
Qed.

(** X11: PUT and DELETE requests commute on the registry: two PUTs, two
    DELETEs, or a PUT and a DELETE leave the same registry in either order,
    whatever their segments. *)
Theorem put_delete_commute (seg1 seg2 : jsstring) (tasks : list task) :
  (IndexJs.put_task seg1 (IndexJs.put_task seg2 tasks).2).2
  = (IndexJs.put_task seg2 (IndexJs.put_task seg1 tasks).2).2
  ∧ (IndexJs.delete_task seg1 (IndexJs.delete_task seg2 tasks).2).2
    = (IndexJs.delete_task seg2 (IndexJs.delete_task seg1 tasks).2).2
  ∧ (IndexJs.delete_task seg1 (IndexJs.put_task seg2 tasks).2).2
    = (IndexJs.put_task seg2 (IndexJs.delete_task seg1 tasks).2).2.
Proof.
  split_and!.
  - rewrite !put_task_state. apply toggle_first_comm.
  - unfold IndexJs.delete_task. cbn [snd].
    rewrite !list_filter_filter. apply list_filter_iff. intros t. tauto.
  - rewrite !put_task_state. unfold IndexJs.delete_task. cbn [snd].
    apply toggle_first_filter.
Qed.

(** X12: PUT is an involution on every registry, found or not: after n PUTs
    with one segment the registry is as at the start when n is even, and as
    after a single PUT when n is odd. *)
Theorem put_task_parity (n : nat) (seg : jsstring) (tasks : list task) :
  Nat.iter n (λ ts, (IndexJs.put_task seg ts).2) tasks
  = if Nat.even n then tasks else (IndexJs.put_task seg tasks).2.
Proof.
  induction n as [|n IH]; [done|].
  rewrite Nat.iter_succ, IH, Nat.even_succ, <- Nat.negb_even.
  destruct (Nat.even n); simpl; [done|].
  rewrite !put_task_state. apply toggle_first_involutive.
Qed.

(** A task that does not match is not written to. *)
Lemma toggle_first_lookup_other (n : number) (tasks : list task) (j : nat) (u : task) :
  tasks !! j = Some u → id_matches n u = false →
  toggle_first n tasks !! j = Some u.
Proof.
  revert j. induction tasks as [|t tasks IH]; intros j Hj Hu; [done|].
  simpl. destruct (id_matches n t) eqn:Hm.
  - destruct j as [|j]; [|done]. simpl in Hj. congruence.
  - destruct j as [|j]; [done|]. simpl in *. by apply IH.
Qed.

(** X13: when two tasks have the same id, PUT never writes to the later one:
    whatever the segment, the later task is in its slot unchanged. *)
Theorem put_task_skips_later_duplicate
    (seg : jsstring) (tasks : list task) (i j : nat) (t u : task) :
  tasks !! i = Some t → tasks !! j = Some u → (i < j)%nat → id t = id u →
  (IndexJs.put_task seg tasks).2 !! j = Some u.
Proof.
  rewrite put_task_state. revert i j.
  induction tasks as [|a tasks IH]; intros i j Hi Hj Hlt Hid; [done|].
  destruct j as [|j]; [lia|]. simpl in Hj. simpl.
  destruct (id_matches (Number seg) a) eqn:Hm; [done|]. simpl.
  destruct i as [|i].
  - simpl in Hi. injection Hi as ->.
    apply toggle_first_lookup_other; [done|].
    unfold id_matches in *. by rewrite <- Hid.
  - simpl in Hi. apply (IH i); [done..|lia|done].
Qed.

Lemma put_task_skips_later_duplicate_witness :
  let tasks := (run same_millisecond []).2 in
  let t := Task 1700000000000 (VStr (lit "Buy milk")) false in
  let u := Task 1700000000000 (VStr (lit "Walk dog")) false in
  tasks !! 0%nat = Some t ∧ tasks !! 1%nat = Some u ∧ (0 < 1)%nat ∧ id t = id u
  ∧ (IndexJs.put_task (lit "1700000000000") tasks).2 !! 1%nat = Some u.
Proof.
  assert (H0 : (run same_millisecond []).2 !! 0%nat
               = Some (Task 1700000000000 (VStr (lit "Buy milk")) false))
    by (vm_compute; reflexivity).
  assert (H1 : (run same_millisecond []).2 !! 1%nat
               = Some (Task 1700000000000 (VStr (lit "Walk dog")) false))
    by (vm_compute; reflexivity).
  assert (Hlt : (0 < 1)%nat) by lia.
  split; [exact H0|]. split; [exact H1|]. split; [exact Hlt|].
  split; [reflexivity|].
  exact (put_task_skips_later_duplicate _ _ _ _ _ _ H0 H1 Hlt eq_refl).
Defined.

(** *** What [Number] makes of a path segment *)

Lemma is_digit_range (c : N) : is_digit c = true → (48 <= c <= 57)%N.
Proof. unfold is_digit. intros [H1 H2]%andb_prop. split; by apply N.leb_le. Qed.

Lemma is_digit_not_whitespace (c : N) :
  is_digit c = true → is_whitespace c = false.
Proof.
  intros Hc%is_digit_range. unfold is_whitespace. cbn [existsb].
  repeat match goal with
  | |- context [(c =? ?k)%N] =>
      replace (c =? k)%N with false by (symmetry; apply N.eqb_neq; lia)
  end.
  replace (8192 <=? c)%N with false by (symmetry; apply N.leb_gt; lia).
  reflexivity.
Qed.

Lemma drop_whitespace_all (w : jsstring) :
  forallb is_whitespace w = true → drop_whitespace w = [].
Proof.
  induction w as [|c w IH]; [done|]. simpl. intros [Hc Hw]%andb_prop.
  rewrite Hc. by apply IH.
Qed.

Lemma drop_whitespace_app (w s : jsstring) :
  forallb is_whitespace w = true → drop_whitespace (w ++ s) = drop_whitespace s.
Proof.
  induction w as [|c w IH]; [done|]. simpl. intros [Hc Hw]%andb_prop.
  rewrite Hc. by apply IH.
Qed.

Lemma forallb_rev (f : N → bool) (s : jsstring) :
  forallb f s = true → forallb f (rev s) = true.
Proof.
  rewrite !forallb_forall. intros H x Hx. apply H. by apply in_rev.
Qed.

(** White space at the end of a string does not survive the trim. *)
Lemma drop_whitespace_rev_app (s w : jsstring) :
  forallb is_whitespace w = true →
  drop_whitespace (rev (drop_whitespace (s ++ w)))
  = drop_whitespace (rev (drop_whitespace s)).
Proof.
  intros Hw. induction s as [|c s IH].
  - simpl. by rewrite (drop_whitespace_all w Hw).
  - simpl. destruct (is_whitespace c); [exact IH|].
    change (c :: s ++ w) with ((c :: s) ++ w).
    rewrite rev_app_distr. apply drop_whitespace_app. by apply forallb_rev.
Qed.

Lemma trim_surrounding_whitespace (w1 s w2 : jsstring) :
  forallb is_whitespace w1 = true → forallb is_whitespace w2 = true →
  trim (w1 ++ s ++ w2) = trim s.
Proof.
  intros H1 H2. unfold trim.
  by rewrite (drop_whitespace_app w1 _ H1), (drop_whitespace_rev_app s w2 H2).
Qed.

(** A string without white space at either end is its own trim. *)
Lemma trim_digits (ds : jsstring) : forallb is_digit ds = true → trim ds = ds.
Proof.
  intros Hd. unfold trim.
  assert (Hkeep : ∀ s, forallb is_digit s = true → drop_whitespace s = s).
  { intros [|c s]; [done|]. simpl. intros [Hc _]%andb_prop.
    by rewrite (is_digit_not_whitespace c Hc). }
  rewrite (Hkeep ds Hd), (Hkeep (rev ds)) by by apply forallb_rev.
  apply rev_involutive.
Qed.

Lemma span_digits_all (ds : jsstring) :
  forallb is_digit ds = true → span_digits ds = (ds, []).
Proof.
  induction ds as [|c ds IH]; [done|]. simpl. intros [Hc Hd]%andb_prop.
  by rewrite Hc, (IH Hd).
Qed.

Lemma digits_value_nonneg (radix acc : Z) (s : jsstring) (v : Z) :
  0 <= radix → 0 <= acc → digits_value radix acc s = Some v → 0 <= v.
Proof.
  intros Hr. revert acc. induction s as [|c s IH]; intros acc Hacc; simpl.
  - intros [= <-]. exact Hacc.
  - destruct (digit_of radix c) as [d|] eqn:Hd; [|done].
    apply IH. assert (0 <= d); [|nia].
    unfold digit_of in Hd.
    destruct ((48 <=? c) && (c <=? 57))%N eqn:H1;
      [|destruct ((97 <=? c) && (c <=? 102))%N eqn:H2;
        [|destruct ((65 <=? c) && (c <=? 70))%N eqn:H3; [|done]]].
    all: match type of Hd with
         | (if ?b then _ else _) = _ => destruct b; [|done]
         end.
    all: injection Hd as <-.
    all: match goal with
         | H : (_ && _)%bool = true |- _ =>
             apply andb_prop in H as [H _]; apply N.leb_le in H; lia
         end.
Qed.

Lemma decimal_value_nonneg (ds : jsstring) : 0 <= decimal_value ds.
Proof.
  unfold decimal_value. destruct (digits_value 10 0 ds) as [v|] eqn:Hv; [|done].
  simpl. by eapply (digits_value_nonneg 10 0 ds v).
Qed.

(** A non-empty string of decimal digits is read as its decimal value. *)
Lemma Number_digits (ds : jsstring) :
  ds ≠ [] → forallb is_digit ds = true → Number ds = of_Z (decimal_value ds).
Proof.
  intros Hne Hd. unfold Number. rewrite (trim_digits ds Hd).
  assert (Hdec : parse_decimal false ds = of_Z (decimal_value ds)).
  { unfold parse_decimal, jsstring_eqb. rewrite bool_decide_eq_false_2.
    2:{ intros ->. discriminate Hd. }
    unfold parse_unsigned_decimal. rewrite (span_digits_all ds Hd), app_nil_r.
    destruct ds as [|c ds]; [done|]. cbn [parse_exponent length].
    unfold round_decimal. pose proof (decimal_value_nonneg (c :: ds)) as Hnn.
    destruct (Z.leb_spec (decimal_value (c :: ds)) 0) as [Hle|Hlt].
    - by replace (decimal_value (c :: ds)) with 0 by lia.
    - simpl. unfold of_Z. f_equal. lia. }
  destruct ds as [|c ds]; [done|]. cbn [parse_numeric].
  pose proof Hd as [Hc Hds]%andb_prop. apply is_digit_range in Hc.
  replace (c =? 43)%N with false by (symmetry; apply N.eqb_neq; lia).
  replace (c =? 45)%N with false by (symmetry; apply N.eqb_neq; lia).
  destruct (c =? 48)%N; [|exact Hdec].
  destruct ds as [|x ds]; [exact Hdec|].
  apply andb_prop in Hds as [Hx%is_digit_range _].
  repeat match goal with
  | |- context [(x =? ?k)%N] =>
      replace (x =? k)%N with false by (symmetry; apply N.eqb_neq; lia)
  end.
  exact Hdec.
Qed.

(** A safe integer is strictly equal to itself as a Number. *)
Lemma strict_eq_of_Z_refl (a : Z) :
  safe_integer a → strict_eq (of_Z a) (of_Z a) = true.
Proof.
  unfold safe_integer, of_Z, binary_normalize.
  destruct a as [|p|p]; intros Ha; [done|..]; rewrite round_small by lia;
    unfold strict_eq, SFeqb; cbn [SFcompare];
    change (Pos.compare_cont Eq (mantissa p) (mantissa p))
      with (Pos.compare (mantissa p) (mantissa p));
    by rewrite Z.compare_refl, Pos.compare_refl.
Qed.

(** On safe integers [===] is equality. *)
Lemma strict_eq_of_Z (a b : Z) :
  safe_integer a → safe_integer b →
  strict_eq (of_Z a) (of_Z b) = true ↔ a = b.
Proof.
  intros Ha Hb. split.
  - intros [(s1 & s2 & H1 & H2)|Heq]%strict_eq_inv.
    + rewrite (of_Z_zero _ _ Ha H1). by rewrite (of_Z_zero _ _ Hb H2).
    + by apply of_Z_inj.
  - intros ->. by apply strict_eq_of_Z_refl.
Qed.

(** X14: a segment of decimal digits is read as the integer it spells (also
    with leading zeros), and it matches exactly the tasks that have this
    integer as id; both integers are taken in the range that a Number holds
    exactly. *)
Theorem digits_segment_matches_id (ds : jsstring) (t : task) :
  ds ≠ [] → forallb is_digit ds = true →
  safe_integer (decimal_value ds) → safe_integer (id t) →
  Number ds = of_Z (decimal_value ds)
  ∧ (id_matches (Number ds) t = true ↔ id t = decimal_value ds).
Proof.
  intros Hne Hd Hv Ht. rewrite (Number_digits ds Hne Hd).
  split; [done|]. unfold id_matches. by apply strict_eq_of_Z.
Qed.

Lemma digits_segment_matches_id_witness :
  let ds := lit "001700000000000" in
  let t := Task 1700000000000 (VStr (lit "Buy milk")) false in
  ds ≠ [] ∧ forallb is_digit ds = true
  ∧ safe_integer (decimal_value ds) ∧ safe_integer (id t)
  ∧ Number ds = of_Z (decimal_value ds)
  ∧ (id_matches (Number ds) t = true ↔ id t = decimal_value ds).
Proof.
  assert (Hne : lit "001700000000000" ≠ []) by discriminate.
  assert (Hd : forallb is_digit (lit "001700000000000") = true)
    by (vm_compute; reflexivity).
  assert (Hv : safe_integer (decimal_value (lit "001700000000000")))
    by (vm_compute; reflexivity).
  assert (Ht : safe_integer 1700000000000) by (vm_compute; reflexivity).
  split; [exact Hne|]. split; [exact Hd|]. split; [exact Hv|]. split; [exact Ht|].
  exact (digits_segment_matches_id _ (Task 1700000000000 (VStr (lit "Buy milk")) false)
           Hne Hd Hv Ht).
Defined.

(** X15: a segment of white space only is read as 0: it matches exactly the
    tasks with id 0. *)
Theorem blank_segment_matches_zero (seg : jsstring) (t : task) :
  forallb is_whitespace seg = true → safe_integer (id t) →
  Number seg = S754_zero false
  ∧ (id_matches (Number seg) t = true ↔ id t = 0).
Proof.
  intros Hw Ht.
  assert (Hn : Number seg = S754_zero false).
  { unfold Number, trim. by rewrite (drop_whitespace_all seg Hw). }
  split; [exact Hn|]. rewrite Hn. unfold id_matches.
  change (S754_zero false) with (of_Z 0).
  apply strict_eq_of_Z; [done|]. unfold safe_integer. simpl. lia.
Qed.

Lemma blank_segment_matches_zero_witness :
  let seg := [32; 9; 160]%N in
  let t := Task 0 (VStr (lit "Buy milk")) false in
  forallb is_whitespace seg = true ∧ safe_integer (id t)
  ∧ Number seg = S754_zero false
  ∧ (id_matches (Number seg) t = true ↔ id t = 0).
Proof.
  assert (Hw : forallb is_whitespace [32; 9; 160]%N = true)
    by (vm_compute; reflexivity).
  assert (Ht : safe_integer 0) by (vm_compute; reflexivity).
  split; [exact Hw|]. split; [exact Ht|].
  exact (blank_segment_matches_zero _ (Task 0 (VStr (lit "Buy milk")) false) Hw Ht).
Defined.

(** X16: white space around the segment is ignored: PUT and DELETE answer
    and act as they do for the segment without it. *)
Theorem surrounding_whitespace_ignored (w1 seg w2 : jsstring) (tasks : list task) :
  forallb is_whitespace w1 = true → forallb is_whitespace w2 = true →
  IndexJs.put_task (w1 ++ seg ++ w2) tasks = IndexJs.put_task seg tasks
  ∧ IndexJs.delete_task (w1 ++ seg ++ w2) tasks = IndexJs.delete_task seg tasks.
Proof.
  intros H1 H2. unfold IndexJs.put_task, IndexJs.delete_task, Number.
  by rewrite (trim_surrounding_whitespace w1 seg w2 H1 H2).
Qed.

Lemma surrounding_whitespace_ignored_witness :
  let tasks := (run three_creates []).2 in
  let seg := lit "1700000000002" in
  forallb is_whitespace [32]%N = true ∧ forallb is_whitespace [9; 10]%N = true
  ∧ IndexJs.put_task ([32]%N ++ seg ++ [9; 10]%N) tasks = IndexJs.put_task seg tasks
  ∧ IndexJs.delete_task ([32]%N ++ seg ++ [9; 10]%N) tasks
    = IndexJs.delete_task seg tasks.
Proof.
  assert (H1 : forallb is_whitespace [32]%N = true) by (vm_compute; reflexivity).
  assert (H2 : forallb is_whitespace [9; 10]%N = true) by (vm_compute; reflexivity).
  split; [exact H1|]. split; [exact H2|].
  exact (surrounding_whitespace_ignored _ _ _ _ H1 H2).
Defined.

(** X17: a segment that starts with a code unit that is neither white space
    nor a digit, a sign, a dot or the letter I is no number: PUT answers 404
    and DELETE answers 200, and both leave the registry as it was. *)
Theorem bad_start_segment_not_found (c : N) (r : jsstring) (tasks : list task) :
  is_whitespace c = false → is_digit c = false →
  c ≠ 43%N → c ≠ 45%N → c ≠ 46%N → c ≠ 73%N →
  IndexJs.put_task (c :: r) tasks
  = (Response 404 (JsonError "Task not found"), tasks)
  ∧ IndexJs.delete_task (c :: r) tasks
    = (Response 200 (JsonMessage "Task deleted successfully"), tasks).
Proof.
  intros Hws Hdig Hplus Hminus Hdot HI.
  unfold IndexJs.put_task, IndexJs.delete_task.
  rewrite (Number_bad_start c r Hws Hdig Hplus Hminus Hdot HI).
  rewrite find_no_match, filter_no_match; [done|..];
    intros t _; apply id_matches_NaN.
Qed.

Lemma bad_start_segment_not_found_witness :
  let tasks := (run three_creates []).2 in
  is_whitespace 97 = false ∧ is_digit 97 = false
  ∧ 97%N ≠ 43%N ∧ 97%N ≠ 45%N ∧ 97%N ≠ 46%N ∧ 97%N ≠ 73%N
  ∧ IndexJs.put_task (97%N :: lit "bc1") tasks
    = (Response 404 (JsonError "Task not found"), tasks)
  ∧ IndexJs.delete_task (97%N :: lit "bc1") tasks
    = (Response 200 (JsonMessage "Task deleted successfully"), tasks).
Proof.
  assert (Hws : is_whitespace 97 = false) by (vm_compute; reflexivity).
  assert (Hdig : is_digit 97 = false) by (vm_compute; reflexivity).
  assert (H43 : 97%N ≠ 43%N) by discriminate.
  assert (H45 : 97%N ≠ 45%N) by discriminate.
  assert (H46 : 97%N ≠ 46%N) by discriminate.
  assert (H73 : 97%N ≠ 73%N) by discriminate.
  split; [exact Hws|]. split; [exact Hdig|]. split; [exact H43|].
  split; [exact H45|]. split; [exact H46|]. split; [exact H73|].
  exact (bad_start_segment_not_found 97 (lit "bc1") _ Hws Hdig H43 H45 H46 H73).
Defined.
